(** * A shallow embedding of the image captioning / visual question answering
    web application (src/app.py): the two request handlers [/upload] and
    [/answer], the helpers [generate_caption], [answer_question_pipeline]
    and [answer_question_model], and the guarded model loading done when the
    module is imported.

    The pretrained models, PIL and the filesystem are external to the
    repository; they are modelled as opaque functions (records of
    functions) and a map of stored files, so every theorem below holds for
    every behaviour of those services. *)

From Stdlib Require Import String Ascii List ZArith Bool.
From stdpp Require Import base gmap strings list.
Import ListNotations.
Open Scope string_scope.

(* ------------------------------------------------------------------ *)
(** ** Python string helpers *)

Definition chars (s : string) : list ascii := list_ascii_of_string s.
Definition of_chars (l : list ascii) : string := string_of_list_ascii l.

(** [s.split(sep)] for a one-character separator: never empty. *)
Fixpoint split_chars (sep : ascii) (l : list ascii) (cur : list ascii)
  : list (list ascii) :=
  match l with
  | [] => [rev cur]
  | c :: t =>
      if Ascii.eqb c sep then rev cur :: split_chars sep t []
      else split_chars sep t (c :: cur)
  end.

Definition py_split (sep : ascii) (s : string) : list string :=
  map of_chars (split_chars sep (chars s) []).

(** [xs[-1]] on the (never empty) result of [split]. *)
Definition py_last (xs : list string) : string := List.last xs "".

(** Characters on which [str.split()] without argument splits, restricted
    to ASCII: \t \n \x0b \x0c \r, \x1c..\x1f and the space. *)
Definition is_py_space (c : ascii) : bool :=
  let n := nat_of_ascii c in
  (((9 <=? n) && (n <=? 13)) || ((28 <=? n) && (n <=? 32)))%nat.

(** [str.split()]: runs of whitespace separate, empty words are dropped. *)
Fixpoint split_ws (l : list ascii) (cur : list ascii) : list (list ascii) :=
  match l with
  | [] => match cur with [] => [] | _ => [rev cur] end
  | c :: t =>
      if is_py_space c then
        match cur with
        | [] => split_ws t []
        | _ => rev cur :: split_ws t []
        end
      else split_ws t (c :: cur)
  end.

(** [sep.join(words)]. *)
Fixpoint join_with (sep : ascii) (ws : list (list ascii)) : list ascii :=
  match ws with
  | [] => []
  | [w] => w
  | w :: t => w ++ sep :: join_with sep t
  end.

(** [str.strip(cs)] *)
Fixpoint lstrip (p : ascii -> bool) (l : list ascii) : list ascii :=
  match l with
  | c :: t => if p c then lstrip p t else l
  | [] => []
  end.

Definition strip (p : ascii -> bool) (l : list ascii) : list ascii :=
  rev (lstrip p (rev (lstrip p l))).

(* ------------------------------------------------------------------ *)
(** ** [werkzeug.utils.secure_filename] on a POSIX host

    <<
    filename = unicodedata.normalize("NFKD", filename)
    filename = filename.encode("ascii", "ignore").decode("ascii")
    for sep in os.sep, os.path.altsep:        # "/", None on POSIX
        if sep:
            filename = filename.replace(sep, " ")
    filename = str(_filename_ascii_strip_re.sub("", "_".join(
                   filename.split()))).strip("._")
    if os.name == "nt" and ...:               # not taken on POSIX
        filename = f"_{filename}"
    return filename
    >>
    with [_filename_ascii_strip_re = re.compile(r"[^A-Za-z0-9_.-]")].
    Filenames are Rocq strings of bytes; the NFKD step is the identity on
    ASCII, and the ASCII encoding with "ignore" drops the other bytes. *)

Definition is_ascii (c : ascii) : bool := (nat_of_ascii c <? 128)%nat.

Definition is_safe_char (c : ascii) : bool :=
  let n := nat_of_ascii c in
  (((65 <=? n) && (n <=? 90)) || ((97 <=? n) && (n <=? 122))
   || ((48 <=? n) && (n <=? 57)))%nat
  || Ascii.eqb c "_"%char || Ascii.eqb c "."%char || Ascii.eqb c "-"%char.

Definition is_dot_or_underscore (c : ascii) : bool :=
  Ascii.eqb c "."%char || Ascii.eqb c "_"%char.

Definition secure_filename (filename : string) : string :=
  let l := List.filter is_ascii (chars filename) in
  let l := map (fun c => if Ascii.eqb c "/"%char then " "%char else c) l in
  let l := join_with "_"%char (split_ws l []) in
  let l := List.filter is_safe_char l in
  of_chars (strip is_dot_or_underscore l).

(* ------------------------------------------------------------------ *)
(** ** [os.path.join] (posixpath) for two arguments

    <<
    path = a
    if b.startswith(sep): path = b
    elif not path or path.endswith(sep): path += b
    else: path += sep + b
    >> *)

Definition ends_with_slash (a : string) : bool :=
  match rev (chars a) with
  | c :: _ => Ascii.eqb c "/"%char
  | [] => false
  end.

Definition os_path_join (a b : string) : string :=
  if String.prefix "/" b then b
  else if String.eqb a "" || ends_with_slash a then a ++ b
  else a ++ "/" ++ b.

(** [UPLOAD_FOLDER = 'static/uploads'], also [app.config['UPLOAD_FOLDER']]. *)
Definition UPLOAD_FOLDER : string := "static/uploads".

(* ------------------------------------------------------------------ *)
(** ** Exceptions, the filesystem and the handler monad *)

(** The exceptions the handlers can meet.  [LibError] stands for any
    [Exception] raised inside a library call (PIL, a processor, a model, a
    pipeline); its payload is the message. *)
Inductive exn : Type :=
  | NameError (name : string)
  | FileNotFoundError (path : string)
  | IsADirectoryError (path : string)
  | IndexError
  | KeyError (key : string)
  | LibError (msg : string).

Definition exn_str (e : exn) : string :=
  match e with
  | NameError n => "name '" ++ n ++ "' is not defined"
  | FileNotFoundError p => "No such file or directory: '" ++ p ++ "'"
  | IsADirectoryError p => "Is a directory: '" ++ p ++ "'"
  | IndexError => "list index out of range"
  | KeyError k => "'" ++ k ++ "'"
  | LibError m => m
  end.

(** [os.path.normpath], as the list of its components (a leading "/" is
    kept as the component ""). *)
Fixpoint norm_comps (cs : list string) (acc : list string) : list string :=
  match cs with
  | [] => rev acc
  | c :: t =>
      if String.eqb c "" || String.eqb c "." then norm_comps t acc
      else if String.eqb c ".." then
        match acc with
        | a :: acc' => if String.eqb a ".." then norm_comps t (c :: acc)
                       else norm_comps t acc'
        | [] => norm_comps t [c]
        end
      else norm_comps t (c :: acc)
  end.

Definition normpath (p : string) : list string :=
  (if String.prefix "/" p then [""] else [])
  ++ norm_comps (py_split "/"%char p) [].

Definition path_key (p : string) : string :=
  String.concat "/" (normpath p).

(** The directories of the served tree the code touches: the working
    directory, [static] and the upload folder created by
    [os.makedirs(UPLOAD_FOLDER, exist_ok=True)]. *)
Definition is_dir (p : string) : bool :=
  match normpath p with
  | [] | ["static"] | ["static"; "uploads"] => true
  | _ => false
  end.

Definition bytes := list Byte.byte.

(** Regular files, keyed by their normalised path. *)
Abbreviation FS := (gmap string bytes).

(** What the handlers print to the console, and every call into a model,
    processor or pipeline, in order. *)
Inductive event : Type :=
  | EvPrint (msg : string)
  | EvCall (service : string).

(** Python statements over the filesystem: they may raise, and effects
    done before a raise persist. *)
Definition M (A : Type) : Type := FS -> (exn + A) * FS * list event.

Definition ret {A} (a : A) : M A := fun fs => (inr a, fs, []).

Definition raise {A} (e : exn) : M A := fun fs => (inl e, fs, []).

Definition bind {A B} (m : M A) (k : A -> M B) : M B :=
  fun fs =>
    match m fs with
    | (inl e, fs1, l1) => (inl e, fs1, l1)
    | (inr a, fs1, l1) =>
        match k a fs1 with (r, fs2, l2) => (r, fs2, app l1 l2) end
    end.

Notation "'let*' x := m 'in' k" := (bind m (fun x => k))
  (at level 200, x name, m at level 100, k at level 200).

Definition emit (ev : event) : M unit := fun fs => (inr tt, fs, [ev]).

Definition print (msg : string) : M unit := emit (EvPrint msg).

(** A library call: record it, then take its result or its exception. *)
Definition call {A} (service : string) (r : exn + A) : M A :=
  fun fs => (r, fs, [EvCall service]).

(** [try: body except Exception as e: handler(e)] *)
Definition try_except {A} (body : M A) (handler : exn -> M A) : M A :=
  fun fs =>
    match body fs with
    | (inl e, fs1, l1) =>
        match handler e fs1 with (r, fs2, l2) => (r, fs2, app l1 l2) end
    | ok => ok
    end.

(** Reading a module-level name: [NameError] when it was never bound. *)
Definition global {A} (name : string) (v : option A) : M A :=
  match v with Some a => ret a | None => raise (NameError name) end.

(** [output[0]] on a list. *)
Definition index0 {A} (xs : list A) : M A :=
  match xs with x :: _ => ret x | [] => raise IndexError end.

(* ------------------------------------------------------------------ *)
(** ** The external services

    Decoded images and model tensors are kept concrete but opaque: the code
    only passes them from one library call to the next. *)

Definition Image := list Byte.byte.
Definition Tensor := list Z.

(** PIL: [Image.open(f).convert("RGB")] applied to the bytes of a file. *)
Record Pil := { pil_open_convert : bytes -> exn + Image }.

(** [BlipProcessor]: [processor(images=..)] and [processor.decode(..)]. *)
Record CaptionProcessor := {
  cp_call : Image -> exn + Tensor;
  cp_decode : Tensor -> exn + string }.

(** [BlipForConditionalGeneration.generate]: a batch of output sequences. *)
Record CaptionModel := { cm_generate : Tensor -> exn + list Tensor }.

(** One candidate of the VQA pipeline: the dict [{"score": .., "answer": ..}]
    (the score, a float, is kept scaled and is not used by the code). *)
Record Candidate := { cand_score : Z; cand_answer : string }.

(** [pipeline("vqa", ..)(image=.., question=..)]: the list of candidates. *)
Record VQAPipeline := { vqa_call : Image -> string -> exn + list Candidate }.

(** [BlipProcessor] of the unused [blip-vqa-large] branch:
    [processor(images=.., text=prompt)] and [decode]. *)
Record QAProcessor := {
  qp_call : Image -> string -> exn + Tensor;
  qp_decode : Tensor -> exn + string }.

(** The module-level names bound by the loading block; [None] is a name
    that was never bound. *)
Record Globals := {
  caption_model : option CaptionModel;
  caption_processor : option CaptionProcessor;
  use_pipeline : option bool;
  vqa_pipeline : option VQAPipeline;
  qa_model : option CaptionModel;
  qa_processor : option QAProcessor }.

(* ------------------------------------------------------------------ *)
(** ** Files *)

(** [Image.open(path).convert("RGB")]: opening raises for a directory or a
    missing file; decoding is PIL's. *)
Definition open_image (pil : Pil) (path : string) : M Image :=
  fun fs =>
    if is_dir path then (inl (IsADirectoryError path), fs, [])
    else match fs !! path_key path with
         | None => (inl (FileNotFoundError path), fs, [])
         | Some b => (pil_open_convert pil b, fs, [])
         end.

(** [FileStorage.save(dst)]: [open(dst, "wb")] then copy the stream; the
    open raises for a directory or a missing parent directory. *)
Definition save (dst : string) (data : bytes) : M unit :=
  fun fs =>
    if is_dir dst then (inl (IsADirectoryError dst), fs, [])
    else if is_dir (String.concat "/" (removelast (normpath dst)))
    then (inr tt, <[path_key dst := data]> fs, [])
    else (inl (FileNotFoundError dst), fs, []).

(* ------------------------------------------------------------------ *)
(** ** The helpers (src/app.py, lines 28-58) *)

Section Helpers.
Variable g : Globals.
Variable pil : Pil.

Definition generate_caption_body (image_path : string) : M string :=
  let* image := open_image pil image_path in
  let* cp := global "caption_processor" (caption_processor g) in
  let* inputs := call "caption_processor" (cp_call cp image) in
  let* cm := global "caption_model" (caption_model g) in
  let* output := call "caption_model.generate" (cm_generate cm inputs) in
  let* o0 := index0 output in
  let* caption := call "caption_processor.decode" (cp_decode cp o0) in
  ret caption.

Definition generate_caption (image_path : string) : M string :=
  try_except (generate_caption_body image_path)
    (fun e =>
       let* _ := print ("Error generating caption: " ++ exn_str e) in
       ret "Error generating caption.").

Definition answer_question_pipeline_body (image_path question : string)
  : M string :=
  let* image := open_image pil image_path in
  let* vqa := global "vqa_pipeline" (vqa_pipeline g) in
  let* result := call "vqa_pipeline" (vqa_call vqa image question) in
  match result with
  | r0 :: _ => ret (cand_answer r0)
  | [] => ret "No answer found."
  end.

Definition answer_question_pipeline (image_path question : string) : M string :=
  try_except (answer_question_pipeline_body image_path question)
    (fun e =>
       let* _ := print ("Error answering question with pipeline: " ++ exn_str e) in
       ret "Error answering question.").

Definition answer_question_model_body (image_path question : string)
  : M string :=
  let* image := open_image pil image_path in
  let prompt := "Answer the following question based on the image: " ++ question in
  let* qp := global "qa_processor" (qa_processor g) in
  let* inputs := call "qa_processor" (qp_call qp image prompt) in
  let* qm := global "qa_model" (qa_model g) in
  let* output := call "qa_model.generate" (cm_generate qm inputs) in
  let* o0 := index0 output in
  call "qa_processor.decode" (qp_decode qp o0).

Definition answer_question_model (image_path question : string) : M string :=
  try_except (answer_question_model_body image_path question)
    (fun e =>
       let* _ := print ("Error answering question with model: " ++ exn_str e) in
       ret "Error answering question.").

End Helpers.

(* ------------------------------------------------------------------ *)
(** ** Requests, responses and the two POST handlers (lines 81-108) *)

(** [werkzeug.datastructures.FileStorage]: client filename and stream. *)
Record FileStorage := { filename : string; stream : bytes }.

(** [request.files] and [request.form] are multi-dicts: [k in d] tests the
    key, [d[k]] gives the first value. *)
Record Request := {
  files : list (string * FileStorage);
  form : list (string * string) }.

Definition md_has {V} (k : string) (d : list (string * V)) : bool :=
  existsb (fun kv => String.eqb (fst kv) k) d.

Definition md_get {V} (k : string) (d : list (string * V)) : M V :=
  match find (fun kv => String.eqb (fst kv) k) d with
  | Some kv => ret (snd kv)
  | None => raise (KeyError k)
  end.

(** A JSON object of string values, with its HTTP status. *)
Record Response := { status : Z; body : list (string * string) }.

(** [jsonify(d)] (status 200) and [jsonify(d), code]. *)
Definition jsonify (d : list (string * string)) : Response :=
  {| status := 200; body := d |}.
Definition jsonify_with (d : list (string * string)) (code : Z) : Response :=
  {| status := code; body := d |}.

(** Flask answers an exception a view lets escape with status 500. *)
Definition http_status (r : exn + Response) : Z :=
  match r with inl _ => 500 | inr resp => status resp end.

Section Handlers.
Variable g : Globals.
Variable pil : Pil.

Definition upload_image (request : Request) : M Response :=
  if negb (md_has "image" (files request)) then
    ret (jsonify_with [("error", "No image uploaded")] 400)
  else
    let* image := md_get "image" (files request) in
    let filename := secure_filename (filename image) in
    let image_path := os_path_join UPLOAD_FOLDER filename in
    let* _ := save image_path (stream image) in
    let* caption := generate_caption g pil image_path in
    ret (jsonify [("image_url", "/static/uploads/" ++ filename);
                  ("caption", caption)]).

Definition answer_image_question (request : Request) : M Response :=
  if negb (md_has "image" (form request)) || negb (md_has "question" (form request)) then
    ret (jsonify_with [("error", "No image or question provided")] 400)
  else
    let* image_url := md_get "image" (form request) in
    let* question := md_get "question" (form request) in
    let image_path :=
      os_path_join UPLOAD_FOLDER (py_last (py_split "/"%char image_url)) in
    let* up := global "use_pipeline" (use_pipeline g) in
    let* answer :=
      if up then answer_question_pipeline g pil image_path question
      else answer_question_model g pil image_path question in
    ret (jsonify [("answer", answer)]).

End Handlers.

(* ------------------------------------------------------------------ *)
(** ** Loading the models at import time (lines 14-25) *)

(** What each [from_pretrained] / [pipeline] call returns or raises. *)
Record Loader := {
  load_caption_model : exn + CaptionModel;
  load_caption_processor : exn + CaptionProcessor;
  load_vqa_pipeline : exn + VQAPipeline;
  load_qa_model : exn + CaptionModel;
  load_qa_processor : exn + QAProcessor }.

Definition no_globals : Globals :=
  {| caption_model := None; caption_processor := None; use_pipeline := None;
     vqa_pipeline := None; qa_model := None; qa_processor := None |}.

(** The [try] block binds the names one after the other; the first
    exception stops it, is printed, and the names not yet bound stay
    unbound.  Returns the bound names and what was printed. *)
Definition load_models (ld : Loader) : Globals * list event :=
  let fail g e := (g, [EvPrint ("Error loading models: " ++ exn_str e)]) in
  match load_caption_model ld with
  | inl e => fail no_globals e
  | inr cm =>
  let g1 := {| caption_model := Some cm; caption_processor := None;
               use_pipeline := None; vqa_pipeline := None;
               qa_model := None; qa_processor := None |} in
  match load_caption_processor ld with
  | inl e => fail g1 e
  | inr cp =>
  let g2 := {| caption_model := Some cm; caption_processor := Some cp;
               use_pipeline := Some true; vqa_pipeline := None;
               qa_model := None; qa_processor := None |} in
  if true then
    match load_vqa_pipeline ld with
    | inl e => fail g2 e
    | inr v =>
        ({| caption_model := Some cm; caption_processor := Some cp;
            use_pipeline := Some true; vqa_pipeline := Some v;
            qa_model := None; qa_processor := None |}, [])
    end
  else
    match load_qa_model ld with
    | inl e => fail g2 e
    | inr qm =>
    match load_qa_processor ld with
    | inl e =>
        fail {| caption_model := Some cm; caption_processor := Some cp;
                use_pipeline := Some true; vqa_pipeline := None;
                qa_model := Some qm; qa_processor := None |} e
    | inr qp =>
        ({| caption_model := Some cm; caption_processor := Some cp;
            use_pipeline := Some true; vqa_pipeline := None;
            qa_model := Some qm; qa_processor := Some qp |}, [])
    end
    end
  end
  end.

(* ------------------------------------------------------------------ *)
(** ** Sample services and requests, used to run the handlers *)

Module Sample.

Definition pil : Pil := {| pil_open_convert := fun b => inr b |}.

Definition processor : CaptionProcessor :=
  {| cp_call := fun _ => inr [1%Z]; cp_decode := fun _ => inr "a black cat" |}.

Definition model : CaptionModel := {| cm_generate := fun t => inr [t] |}.

Definition vqa : VQAPipeline :=
  {| vqa_call := fun _ _ => inr [{| cand_score := 97; cand_answer := "black" |};
                                 {| cand_score := 2; cand_answer := "gray" |}] |}.

Definition vqa_empty : VQAPipeline := {| vqa_call := fun _ _ => inr [] |}.

(** All three loads succeed. *)
Definition loader_ok : Loader :=
  {| load_caption_model := inr model; load_caption_processor := inr processor;
     load_vqa_pipeline := inr vqa;
     load_qa_model := inl (LibError "not loaded");
     load_qa_processor := inl (LibError "not loaded") |}.

(** The caption model cannot be downloaded. *)
Definition loader_offline : Loader :=
  {| load_caption_model := inl (LibError "connection refused");
     load_caption_processor := inr processor; load_vqa_pipeline := inr vqa;
     load_qa_model := inl (LibError "not loaded");
     load_qa_processor := inl (LibError "not loaded") |}.

Definition globals_ok : Globals := fst (load_models loader_ok).

Definition upload (name : string) (data : bytes) : Request :=
  {| files := [("image", {| filename := name; stream := data |})]; form := [] |}.

Definition ask (url question : string) : Request :=
  {| files := []; form := [("image", url); ("question", question)] |}.

Definition cat_bytes : bytes := [Byte.x89; Byte.x50; Byte.x4e; Byte.x47].
Definition dog_bytes : bytes := [Byte.xff; Byte.xd8; Byte.xff].

End Sample.

(* ================================================================== *)
(** * Proofs *)

(** ** Statements that leave the filesystem alone *)

Definition keeps_fs {A} (m : M A) : Prop :=
  forall fs, snd (fst (m fs)) = fs.

(** Every event a computation logs satisfies [P]. *)
Definition logs_within (P : event -> Prop) {A} (m : M A) : Prop :=
  forall fs, Forall P (snd (m fs)).

Create HintDb keeps.

Lemma keeps_ret {A} (a : A) : keeps_fs (ret a).
Proof. intros fs; reflexivity. Qed.

Lemma keeps_raise {A} e : keeps_fs (@raise A e).
Proof. intros fs; reflexivity. Qed.

Lemma keeps_emit ev : keeps_fs (emit ev).
Proof. intros fs; reflexivity. Qed.

Lemma keeps_print msg : keeps_fs (print msg).
Proof. intros fs; reflexivity. Qed.

Lemma keeps_call {A} s (r : exn + A) : keeps_fs (call s r).
Proof. intros fs; reflexivity. Qed.

Lemma keeps_global {A} n (v : option A) : keeps_fs (global n v).
Proof. intros fs; destruct v; reflexivity. Qed.

Lemma keeps_index0 {A} (xs : list A) : keeps_fs (index0 xs).
Proof. intros fs; destruct xs; reflexivity. Qed.

Lemma keeps_md_get {V} k (d : list (string * V)) : keeps_fs (md_get k d).
Proof. intros fs; unfold md_get; destruct (find _ d); reflexivity. Qed.

Lemma keeps_open_image pil p : keeps_fs (open_image pil p).
Proof.
  intros fs; unfold open_image.
  destruct (is_dir p); [reflexivity|].
  destruct (fs !! path_key p); reflexivity.
Qed.

Lemma keeps_bind {A B} (m : M A) (k : A -> M B) :
  keeps_fs m -> (forall a, keeps_fs (k a)) -> keeps_fs (bind m k).
Proof.
  intros Hm Hk fs; unfold bind.
  specialize (Hm fs).
  destruct (m fs) as [[[e|a] fs1] l1]; simpl in *; [exact Hm|].
  specialize (Hk a fs1).
  destruct (k a fs1) as [[r fs2] l2]; simpl in *; congruence.
Qed.

Lemma keeps_try {A} (body : M A) (h : exn -> M A) :
  keeps_fs body -> (forall e, keeps_fs (h e)) -> keeps_fs (try_except body h).
Proof.
  intros Hb Hh fs; unfold try_except.
  specialize (Hb fs).
  destruct (body fs) as [[[e|a] fs1] l1]; simpl in *; [|exact Hb].
  specialize (Hh e fs1).
  destruct (h e fs1) as [[r fs2] l2]; simpl in *; congruence.
Qed.

#[local] Hint Resolve keeps_ret keeps_raise keeps_emit keeps_print keeps_call
  keeps_global keeps_index0 keeps_md_get keeps_open_image : keeps.

Ltac keeps :=
  repeat (intros; first
    [ apply keeps_bind | apply keeps_try
    | progress (eauto with keeps)
    | match goal with |- keeps_fs (match ?x with _ => _ end) => destruct x end
    | match goal with |- keeps_fs (if ?b then _ else _) => destruct b end ]).

Lemma generate_caption_body_keeps g pil p :
  keeps_fs (generate_caption_body g pil p).
Proof. unfold generate_caption_body; keeps. Qed.

Lemma generate_caption_keeps g pil p : keeps_fs (generate_caption g pil p).
Proof. unfold generate_caption, generate_caption_body; keeps. Qed.

Lemma answer_question_pipeline_body_keeps g pil p q :
  keeps_fs (answer_question_pipeline_body g pil p q).
Proof. unfold answer_question_pipeline_body; keeps. Qed.

Lemma answer_question_pipeline_keeps g pil p q :
  keeps_fs (answer_question_pipeline g pil p q).
Proof. unfold answer_question_pipeline, answer_question_pipeline_body; keeps. Qed.

Lemma answer_question_model_body_keeps g pil p q :
  keeps_fs (answer_question_model_body g pil p q).
Proof. unfold answer_question_model_body; keeps. Qed.

Lemma answer_question_model_keeps g pil p q :
  keeps_fs (answer_question_model g pil p q).
Proof. unfold answer_question_model, answer_question_model_body; keeps. Qed.

Lemma answer_image_question_keeps g pil req :
  keeps_fs (answer_image_question g pil req).
Proof.
  unfold answer_image_question.
  destruct (_ || _); [keeps|].
  apply keeps_bind; [keeps|intros url].
  apply keeps_bind; [keeps|intros q].
  apply keeps_bind; [keeps|intros up].
  apply keeps_bind; [|keeps].
  destruct up; [apply answer_question_pipeline_keeps|apply answer_question_model_keeps].
Qed.

(** ** The [try ... except] helpers never raise *)

Lemma try_print_ret {A} (body : M A) (msg : exn -> string) (s : A) fs :
  keeps_fs body ->
  exists l,
    try_except body (fun e => let* _ := print (msg e) in ret s) fs
    = (inr (match fst (fst (body fs)) with inl _ => s | inr c => c end), fs, l).
Proof.
  intros Hb; specialize (Hb fs); unfold try_except.
  destruct (body fs) as [[[e|c] fs1] l1]; simpl in *; subst; eauto.
Qed.

Lemma generate_caption_result g pil p fs :
  exists l, generate_caption g pil p fs =
    (inr (match fst (fst (generate_caption_body g pil p fs)) with
          | inl _ => "Error generating caption." | inr c => c end), fs, l).
Proof.
  exact (try_print_ret _ (fun e => "Error generating caption: " ++ exn_str e) _ fs
           (generate_caption_body_keeps g pil p)).
Qed.

Lemma answer_question_pipeline_result g pil p q fs :
  exists l, answer_question_pipeline g pil p q fs =
    (inr (match fst (fst (answer_question_pipeline_body g pil p q fs)) with
          | inl _ => "Error answering question." | inr c => c end), fs, l).
Proof.
  exact (try_print_ret _
           (fun e => "Error answering question with pipeline: " ++ exn_str e) _ fs
           (answer_question_pipeline_body_keeps g pil p q)).
Qed.

Lemma answer_question_model_result g pil p q fs :
  exists l, answer_question_model g pil p q fs =
    (inr (match fst (fst (answer_question_model_body g pil p q fs)) with
          | inl _ => "Error answering question." | inr c => c end), fs, l).
Proof.
  exact (try_print_ret _
           (fun e => "Error answering question with model: " ++ exn_str e) _ fs
           (answer_question_model_body_keeps g pil p q)).
Qed.

(** ** Multi-dict lookups *)

Lemma find_existsb {A} (f : A -> bool) l x :
  find f l = Some x -> existsb f l = true.
Proof.
  induction l as [|y l IH]; simpl; [discriminate|].
  destruct (f y) eqn:E; simpl; auto.
Qed.

Lemma existsb_find {A} (f : A -> bool) l :
  existsb f l = true -> exists x, find f l = Some x.
Proof.
  induction l as [|y l IH]; simpl; [discriminate|].
  destruct (f y) eqn:E; simpl; eauto.
Qed.

Lemma md_get_found {V} k (d : list (string * V)) kv fs :
  find (fun kv => String.eqb (fst kv) k) d = Some kv ->
  md_get k d fs = (inr (snd kv), fs, []).
Proof. intros H; unfold md_get; rewrite H; reflexivity. Qed.

(** ** The [/upload] handler once the [image] field is present *)

Lemma upload_image_found g pil req kv fs :
  find (fun kv => String.eqb (fst kv) "image") (files req) = Some kv ->
  upload_image g pil req fs =
    (let filename := secure_filename (filename (snd kv)) in
     let image_path := os_path_join UPLOAD_FOLDER filename in
     let* _ := save image_path (stream (snd kv)) in
     let* caption := generate_caption g pil image_path in
     ret (jsonify [("image_url", "/static/uploads/" ++ filename);
                   ("caption", caption)])) fs.
Proof.
  intros H; unfold upload_image, md_has.
  rewrite (find_existsb _ _ _ H); simpl.
  unfold bind at 1; rewrite (md_get_found _ _ _ fs H).
  simpl. destruct (bind _ _ fs) as [[r fs2] l2]. reflexivity.
Qed.

(** ** Strings: sanitised names and the last URL segment *)

Local Open Scope list_scope.

Lemma chars_app s1 s2 : chars (s1 ++ s2) = chars s1 ++ chars s2.
Proof. induction s1 as [|c s1 IH]; simpl; [reflexivity|]. unfold chars in *; simpl; now rewrite IH. Qed.

Lemma split_chars_no_sep sep l cur :
  Forall (fun c => Ascii.eqb c sep = false) l ->
  split_chars sep l cur = [rev cur ++ l].
Proof.
  intros Hl; revert cur; induction Hl as [|c l Hc Hl IH]; intros cur; simpl.
  - now rewrite app_nil_r.
  - rewrite Hc, IH; simpl. now rewrite <- app_assoc.
Qed.

Lemma split_chars_last_segment sep l2 :
  Forall (fun c => Ascii.eqb c sep = false) l2 ->
  forall l1 cur, exists pre, split_chars sep (l1 ++ sep :: l2) cur = pre ++ [l2].
Proof.
  intros H2 l1; induction l1 as [|c l1 IH]; intros cur; simpl.
  - rewrite Ascii.eqb_refl, (split_chars_no_sep _ _ _ H2). now exists [rev cur].
  - destruct (Ascii.eqb c sep).
    + destruct (IH []) as [pre Hpre]. rewrite Hpre. now exists (rev cur :: pre).
    + apply IH.
Qed.

Lemma Forall_lstrip (P : ascii -> Prop) p l : Forall P l -> Forall P (lstrip p l).
Proof. induction 1; simpl; [constructor|]. destruct (p x); auto. Qed.

Lemma Forall_filter_true (f : ascii -> bool) l :
  Forall (fun c => f c = true) (List.filter f l).
Proof.
  induction l as [|c l IH]; simpl; [constructor|].
  destruct (f c) eqn:E; [constructor|]; auto.
Qed.

(** Every character of a sanitised name is one of [A-Za-z0-9_.-]. *)
Lemma secure_filename_safe fn :
  Forall (fun c => is_safe_char c = true) (chars (secure_filename fn)).
Proof.
  unfold secure_filename, of_chars, chars.
  rewrite list_ascii_of_string_of_list_ascii.
  unfold strip. apply Forall_rev, Forall_lstrip, Forall_rev, Forall_lstrip.
  apply Forall_filter_true.
Qed.

(** In particular a sanitised name has no directory separator. *)
Lemma secure_filename_no_slash fn :
  Forall (fun c => Ascii.eqb c "/"%char = false) (chars (secure_filename fn)).
Proof.
  eapply Forall_impl; [apply secure_filename_safe|].
  intros c Hc. destruct (Ascii.eqb c "/"%char) eqn:E; [|reflexivity].
  apply Ascii.eqb_eq in E; subst. discriminate.
Qed.

Lemma url_last_segment f :
  Forall (fun c => Ascii.eqb c "/"%char = false) (chars f) ->
  py_last (py_split "/"%char ("/static/uploads/" ++ f)%string) = f.
Proof.
  intros Hf. unfold py_split, py_last.
  rewrite chars_app.
  change (chars "/static/uploads/") with
    (chars "/static/uploads" ++ ["/"%char]).
  rewrite <- app_assoc.
  destruct (split_chars_last_segment _ _ Hf (chars "/static/uploads") [])
    as [pre Hpre].
  simpl app in Hpre |- *. rewrite Hpre, List.map_app. simpl map.
  rewrite List.last_last. apply string_of_list_ascii_of_string.
Qed.

Local Open Scope string_scope.

Lemma upload_image_missing g pil req fs :
  md_has "image" (files req) = false ->
  upload_image g pil req fs
  = (inr (jsonify_with [("error", "No image uploaded")] 400), fs, []).
Proof. intros H; unfold upload_image; now rewrite H. Qed.

Ltac caption_step :=
  match goal with
  | |- context [generate_caption ?g ?pil ?p ?fs] =>
      let l := fresh "l" in let Hl := fresh "Hl" in
      destruct (generate_caption_result g pil p fs) as [l Hl]; rewrite Hl
  | H : context [generate_caption ?g ?pil ?p ?fs] |- _ =>
      let l := fresh "l" in let Hl := fresh "Hl" in
      destruct (generate_caption_result g pil p fs) as [l Hl]; rewrite Hl in H
  end.

(** Whether [save] succeeds depends on the path only; it stores the bytes
    under the path's key and leaves every other file alone. *)
Lemma save_ok p d fs fs' l :
  save p d fs = (inr tt, fs', l) ->
  fs' = <[path_key p := d]> fs /\ l = []
  /\ forall d' fs0, save p d' fs0 = (inr tt, <[path_key p := d']> fs0, []).
Proof.
  unfold save. destruct (is_dir p); [discriminate|].
  destruct (is_dir _); [|discriminate].
  intros [= <- <-]. auto.
Qed.

(** Without a caption model or processor bound, captioning always fails
    inside its [try]. *)
Lemma generate_caption_body_unbound g pil p fs :
  caption_model g = None \/ caption_processor g = None ->
  exists e, fst (fst (generate_caption_body g pil p fs)) = inl e.
Proof.
  intros Hg. unfold generate_caption_body, bind, global, call, index0, ret, raise.
  destruct Hg as [Hg|Hg]; rewrite Hg; repeat case_match; simplify_eq/=; eauto.
Qed.

(** Without the VQA pipeline bound, answering through it always fails
    inside its [try]. *)
Lemma answer_question_pipeline_body_unbound g pil p q fs :
  vqa_pipeline g = None ->
  exists e, fst (fst (answer_question_pipeline_body g pil p q fs)) = inl e.
Proof.
  intros Hv. unfold answer_question_pipeline_body, bind at 1.
  destruct (open_image pil p fs) as [[[e|img] fs1] l1]; [simpl; eauto|].
  unfold bind at 1, global. rewrite Hv. simpl. eauto.
Qed.

(** The loading block binds [use_pipeline] to [True] or leaves it unbound. *)
Lemma load_models_use_pipeline ld :
  use_pipeline (fst (load_models ld)) = None
  \/ use_pipeline (fst (load_models ld)) = Some true.
Proof.
  unfold load_models.
  destruct (load_caption_model ld); [left; reflexivity|].
  destruct (load_caption_processor ld); [left; reflexivity|].
  right. destruct (load_vqa_pipeline ld); reflexivity.
Qed.

(** The [/answer] handler once both form fields are present. *)
Lemma answer_image_question_found g pil req fs kvi kvq :
  find (fun kv => String.eqb (fst kv) "image") (form req) = Some kvi ->
  find (fun kv => String.eqb (fst kv) "question") (form req) = Some kvq ->
  answer_image_question g pil req fs =
    (let image_path :=
       os_path_join UPLOAD_FOLDER (py_last (py_split "/"%char (snd kvi))) in
     let* up := global "use_pipeline" (use_pipeline g) in
     let* answer :=
       if up then answer_question_pipeline g pil image_path (snd kvq)
       else answer_question_model g pil image_path (snd kvq) in
     ret (jsonify [("answer", answer)])) fs.
Proof.
  intros Hi Hq. unfold answer_image_question, md_has.
  rewrite (find_existsb _ _ _ Hi), (find_existsb _ _ _ Hq). simpl.
  unfold bind at 1; rewrite (md_get_found _ _ _ fs Hi). cbv beta iota.
  unfold bind at 1; rewrite (md_get_found _ _ _ fs Hq). cbv beta iota.
  destruct (bind _ _ fs) as [[r fs2] l2]. reflexivity.
Qed.

Lemma answer_without_inputs_is_400_aux g pil req fs :
  md_has "image" (form req) = false \/ md_has "question" (form req) = false ->
  answer_image_question g pil req fs
  = (inr {| status := 400; body := [("error", "No image or question provided")] |},
     fs, []).
Proof.
  intros [H|H]; unfold answer_image_question; rewrite H; simpl;
    [reflexivity|]. now rewrite orb_true_r.
Qed.

(** Requests served without a caption handle get the caption sentinel. *)
Lemma upload_caption_unbound g pil req fs :
  caption_model g = None \/ caption_processor g = None ->
  match fst (fst (upload_image g pil req fs)) with
  | inl _ => True
  | inr r =>
      r = {| status := 400; body := [("error", "No image uploaded")] |}
      \/ (status r = 200%Z /\
          exists url, body r = [("image_url", url); ("caption", "Error generating caption.")])
  end.
Proof.
  intros Hg.
  destruct (md_has "image" (files req)) eqn:Hm.
  - destruct (existsb_find _ _ Hm) as [kv Hkv].
    rewrite (upload_image_found _ _ _ _ _ Hkv). unfold bind at 1.
    destruct (save _ _ fs) as [[[e|[]] fs1] l1]; [exact I|].
    unfold bind at 1. caption_step. simpl. right. split; [reflexivity|].
    destruct (generate_caption_body_unbound g pil
                (os_path_join UPLOAD_FOLDER (secure_filename (filename (snd kv)))) fs1 Hg)
      as [e He].
    rewrite He. eexists; reflexivity.
  - rewrite upload_image_missing by exact Hm. left; reflexivity.
Qed.

(** Requests served without the VQA pipeline get the answer sentinel, or
    the [NameError] of an unbound [use_pipeline]. *)
Lemma answer_vqa_unbound g pil req fs :
  vqa_pipeline g = None -> use_pipeline g <> Some false ->
  match fst (fst (answer_image_question g pil req fs)) with
  | inl e => e = NameError "use_pipeline"
  | inr r =>
      r = {| status := 400; body := [("error", "No image or question provided")] |}
      \/ r = {| status := 200; body := [("answer", "Error answering question.")] |}
  end.
Proof.
  intros Hv Hup.
  destruct (md_has "image" (form req)) eqn:Hi;
    [|rewrite answer_without_inputs_is_400_aux by (left; exact Hi); left; reflexivity].
  destruct (md_has "question" (form req)) eqn:Hq;
    [|rewrite answer_without_inputs_is_400_aux by (right; exact Hq); left; reflexivity].
  destruct (existsb_find _ _ Hi) as [kvi Hkvi].
  destruct (existsb_find _ _ Hq) as [kvq Hkvq].
  rewrite (answer_image_question_found _ _ _ _ _ _ Hkvi Hkvq).
  unfold bind at 1, global.
  destruct (use_pipeline g) as [[]|]; [|congruence|reflexivity].
  unfold ret at 1. cbv beta iota. unfold bind at 1.
  set (p := os_path_join UPLOAD_FOLDER (py_last (py_split "/"%char (snd kvi)))).
  destruct (answer_question_pipeline_result g pil p (snd kvq) fs) as [l Hl].
  rewrite Hl. simpl.
  destruct (answer_question_pipeline_body_unbound g pil p (snd kvq) fs Hv) as [e He].
  rewrite He. right; reflexivity.
Qed.

(* ================================================================== *)
(** * The claims *)

(** C1: a POST /upload whose [request.files] has no [image] key is answered
    400 with exactly [{"error": "No image uploaded"}]; the filesystem is
    unchanged (no file is written) and nothing is called or printed. *)
Theorem upload_without_image_is_400 g pil req fs :
  md_has "image" (files req) = false ->
  upload_image g pil req fs
  = (inr {| status := 400; body := [("error", "No image uploaded")] |}, fs, []).
Proof. intros H. exact (upload_image_missing g pil req fs H). Qed.

Lemma upload_without_image_is_400_witness :
  md_has "image" (files (Sample.ask "/static/uploads/cat.jpg" "what?")) = false
  /\ upload_image Sample.globals_ok Sample.pil
       (Sample.ask "/static/uploads/cat.jpg" "what?") ∅
     = (inr {| status := 400; body := [("error", "No image uploaded")] |}, ∅, []).
Proof.
  split; [reflexivity|].
  apply upload_without_image_is_400. reflexivity.
Defined.

(** C2: a POST /answer whose form lacks [image] or lacks [question] is
    answered 400 with exactly [{"error": "No image or question provided"}];
    no model, processor or pipeline is called (the event log is empty) and
    the filesystem is unchanged. *)
Theorem answer_without_inputs_is_400 g pil req fs :
  md_has "image" (form req) = false \/ md_has "question" (form req) = false ->
  answer_image_question g pil req fs
  = (inr {| status := 400; body := [("error", "No image or question provided")] |},
     fs, []).
Proof. intros H. exact (answer_without_inputs_is_400_aux g pil req fs H). Qed.

Lemma answer_without_inputs_is_400_witness :
  (md_has "image" (form {| files := []; form := [("image", "/static/uploads/cat.jpg")] |})
     = false
   \/ md_has "question"
        (form {| files := []; form := [("image", "/static/uploads/cat.jpg")] |}) = false)
  /\ answer_image_question Sample.globals_ok Sample.pil
       {| files := []; form := [("image", "/static/uploads/cat.jpg")] |} ∅
     = (inr {| status := 400;
               body := [("error", "No image or question provided")] |}, ∅, []).
Proof.
  split; [right; reflexivity|].
  apply answer_without_inputs_is_400. right; reflexivity.
Defined.

(** C4: when loading the image and calling the VQA pipeline both succeed,
    [answer_question_pipeline] returns the answer of the first candidate,
    or ["No answer found."] when the pipeline returned no candidate; the
    filesystem is unchanged. *)
Theorem answer_pipeline_top_candidate g pil fs image_path question vqa img cands :
  vqa_pipeline g = Some vqa ->
  open_image pil image_path fs = (inr img, fs, []) ->
  vqa_call vqa img question = inr cands ->
  exists l, answer_question_pipeline g pil image_path question fs
    = (inr (match cands with
            | c :: _ => cand_answer c
            | [] => "No answer found."
            end), fs, l).
Proof.
  intros Hv Ho Hc.
  destruct (answer_question_pipeline_result g pil image_path question fs) as [l Hl].
  exists l. rewrite Hl. do 3 f_equal.
  unfold answer_question_pipeline_body, bind at 1. rewrite Ho.
  unfold bind at 1, global. rewrite Hv. simpl.
  unfold bind at 1, call. rewrite Hc. simpl.
  destruct cands; reflexivity.
Qed.

Lemma answer_pipeline_top_candidate_witness :
  vqa_pipeline Sample.globals_ok = Some Sample.vqa
  /\ open_image Sample.pil "static/uploads/cat.jpg"
       (<["static/uploads/cat.jpg" := Sample.cat_bytes]> ∅)
     = (inr Sample.cat_bytes, <["static/uploads/cat.jpg" := Sample.cat_bytes]> ∅, [])
  /\ vqa_call Sample.vqa Sample.cat_bytes "What color is the animal?"
     = inr [{| cand_score := 97; cand_answer := "black" |};
            {| cand_score := 2; cand_answer := "gray" |}]
  /\ exists l, answer_question_pipeline Sample.globals_ok Sample.pil
       "static/uploads/cat.jpg" "What color is the animal?"
       (<["static/uploads/cat.jpg" := Sample.cat_bytes]> ∅)
     = (inr "black", <["static/uploads/cat.jpg" := Sample.cat_bytes]> ∅, l).
Proof.
  split; [reflexivity|]. split; [reflexivity|]. split; [reflexivity|].
  apply (answer_pipeline_top_candidate _ _ _ _ _ Sample.vqa Sample.cat_bytes
           [{| cand_score := 97; cand_answer := "black" |};
            {| cand_score := 2; cand_answer := "gray" |}]);
    reflexivity.
Defined.


(** C5: when the [image] file field is present and the upload succeeds, the
    response is 200 and its [image_url] is ["/static/uploads/"] followed by
    [secure_filename] of the client's filename; the part of that URL after
    its last "/" is exactly the sanitised name, whose characters are all in
    [A-Za-z0-9_.-] (no directory separator survives). *)
Theorem upload_url_is_sanitized_name g pil req fs kv :
  find (fun kv => String.eqb (fst kv) "image") (files req) = Some kv ->
  let f := secure_filename (filename (snd kv)) in
  match fst (fst (upload_image g pil req fs)) with
  | inr r => status r = 200%Z /\
             exists caption, body r = [("image_url", "/static/uploads/" ++ f);
                                       ("caption", caption)]
  | inl _ => True
  end
  /\ py_last (py_split "/"%char ("/static/uploads/" ++ f)) = f
  /\ Forall (fun c => is_safe_char c = true) (chars f).
Proof.
  intros H f. split; [|split].
  - rewrite (upload_image_found _ _ _ _ _ H). unfold bind at 1.
    destruct (save _ _ fs) as [[[e|[]] fs1] l1]; [exact I|].
    unfold bind at 1. caption_step. simpl.
    split; [reflexivity|eexists; reflexivity].
  - apply url_last_segment, secure_filename_no_slash.
  - apply secure_filename_safe.
Qed.

Lemma upload_url_is_sanitized_name_witness :
  find (fun kv => String.eqb (fst kv) "image")
       (files (Sample.upload "../holiday pics/cat photo.jpg" Sample.cat_bytes))
  = Some ("image", {| filename := "../holiday pics/cat photo.jpg";
                      stream := Sample.cat_bytes |})
  /\ secure_filename "../holiday pics/cat photo.jpg" = "holiday_pics_cat_photo.jpg"
  /\ (let f := "holiday_pics_cat_photo.jpg" in
      match fst (fst (upload_image Sample.globals_ok Sample.pil
                        (Sample.upload "../holiday pics/cat photo.jpg" Sample.cat_bytes) ∅))
      with
      | inr r => status r = 200%Z /\
                 exists caption, body r = [("image_url", "/static/uploads/" ++ f);
                                           ("caption", caption)]
      | inl _ => True
      end
      /\ py_last (py_split "/"%char ("/static/uploads/" ++ f)) = f
      /\ Forall (fun c => is_safe_char c = true) (chars f)).
Proof.
  split; [reflexivity|]. split; [reflexivity|].
  exact (upload_url_is_sanitized_name Sample.globals_ok Sample.pil
           (Sample.upload "../holiday pics/cat photo.jpg" Sample.cat_bytes) ∅
           ("image", {| filename := "../holiday pics/cat photo.jpg";
                        stream := Sample.cat_bytes |}) eq_refl).
Defined.

(** C6: the storage path that [/answer] rebuilds from an [image_url] of the
    form ["/static/uploads/" ++ f], with [f] a sanitised name (the part after
    the last "/", joined to [UPLOAD_FOLDER]), is the path under which
    [/upload] stored the file, [os.path.join(UPLOAD_FOLDER, f)]. *)
Theorem url_roundtrip_storage_path original :
  let f := secure_filename original in
  os_path_join UPLOAD_FOLDER (py_last (py_split "/"%char ("/static/uploads/" ++ f)))
  = os_path_join UPLOAD_FOLDER f.
Proof.
  intros f. now rewrite url_last_segment by apply secure_filename_no_slash.
Qed.

(** C9: a POST /answer leaves the filesystem as it was (the globals are
    only read: the handler takes them as an argument and returns none), so
    submitting the same request again from the resulting state runs exactly
    as the first submission did. *)
Theorem answer_is_repeatable g pil req fs :
  snd (fst (answer_image_question g pil req fs)) = fs
  /\ answer_image_question g pil req (snd (fst (answer_image_question g pil req fs)))
     = answer_image_question g pil req fs.
Proof.
  pose proof (answer_image_question_keeps g pil req fs) as Hk.
  split; [exact Hk|]. now rewrite Hk.
Qed.

(** C10: the [/upload] guard only tests that the [image] key is present: for
    a file field whose filename sanitises to the empty string the 400 branch
    is not taken; the handler joins [UPLOAD_FOLDER] with "" and calls
    [save] on the resulting path ["static/uploads/"], which raises
    [IsADirectoryError] (an HTTP 500), writing nothing. *)
Theorem upload_empty_name_reaches_save g pil req fs kv :
  find (fun kv => String.eqb (fst kv) "image") (files req) = Some kv ->
  secure_filename (filename (snd kv)) = "" ->
  md_has "image" (files req) = true
  /\ os_path_join UPLOAD_FOLDER (secure_filename (filename (snd kv))) = "static/uploads/"
  /\ upload_image g pil req fs = (inl (IsADirectoryError "static/uploads/"), fs, []).
Proof.
  intros H He. split; [exact (find_existsb _ _ _ H)|].
  rewrite He. split; [reflexivity|].
  rewrite (upload_image_found _ _ _ _ _ H), He. reflexivity.
Qed.

Lemma upload_empty_name_reaches_save_witness :
  find (fun kv => String.eqb (fst kv) "image") (files (Sample.upload "../" []))
  = Some ("image", {| filename := "../"; stream := [] |})
  /\ secure_filename "../" = ""
  /\ md_has "image" (files (Sample.upload "../" [])) = true
  /\ os_path_join UPLOAD_FOLDER (secure_filename "../") = "static/uploads/"
  /\ upload_image Sample.globals_ok Sample.pil (Sample.upload "../" []) ∅
     = (inl (IsADirectoryError "static/uploads/"), ∅, []).
Proof.
  split; [reflexivity|]. split; [reflexivity|].
  exact (upload_empty_name_reaches_save Sample.globals_ok Sample.pil
           (Sample.upload "../" []) ∅ ("image", {| filename := "../"; stream := [] |})
           eq_refl eq_refl).
Defined.

(** C8: when a first upload succeeded and a second upload's filename
    sanitises to the same name, the second upload also succeeds (status
    200) and replaces the stored bytes: the filesystem after it is the one
    before the first upload with only that path set to the second upload's
    bytes.  There is no check, renaming or rejection. *)
Theorem same_name_upload_overwrites g pil fs req1 req2 kv1 kv2 r1 fs1 l1 :
  find (fun kv => String.eqb (fst kv) "image") (files req1) = Some kv1 ->
  find (fun kv => String.eqb (fst kv) "image") (files req2) = Some kv2 ->
  secure_filename (filename (snd kv1)) = secure_filename (filename (snd kv2)) ->
  upload_image g pil req1 fs = (inr r1, fs1, l1) ->
  let key := path_key (os_path_join UPLOAD_FOLDER (secure_filename (filename (snd kv2)))) in
  fs1 = <[key := stream (snd kv1)]> fs
  /\ exists r2 l2,
       upload_image g pil req2 fs1 = (inr r2, <[key := stream (snd kv2)]> fs, l2)
       /\ status r2 = 200%Z.
Proof.
  intros H1 H2 Hname Hup key.
  rewrite (upload_image_found _ _ _ _ _ H1), Hname in Hup.
  rewrite (upload_image_found _ _ _ _ _ H2).
  unfold bind at 1 in Hup.
  destruct (save _ _ fs) as [[[e|[]] fs'] l'] eqn:Hs; [discriminate|].
  destruct (save_ok _ _ _ _ _ Hs) as (-> & -> & Hall).
  unfold bind at 1 in Hup. caption_step. cbv beta iota in Hup.
  injection Hup as _ <- _.
  split; [reflexivity|].
  unfold bind at 1. rewrite Hall.
  unfold bind at 1. caption_step. cbv beta iota.
  rewrite insert_insert_eq. eexists _, _; split; reflexivity.
Qed.

Lemma same_name_upload_overwrites_witness :
  find (fun kv => String.eqb (fst kv) "image")
       (files (Sample.upload "pet.jpg" Sample.cat_bytes))
  = Some ("image", {| filename := "pet.jpg"; stream := Sample.cat_bytes |})
  /\ find (fun kv => String.eqb (fst kv) "image")
       (files (Sample.upload "../pet.jpg" Sample.dog_bytes))
  = Some ("image", {| filename := "../pet.jpg"; stream := Sample.dog_bytes |})
  /\ secure_filename "pet.jpg" = secure_filename "../pet.jpg"
  /\ upload_image Sample.globals_ok Sample.pil (Sample.upload "pet.jpg" Sample.cat_bytes) ∅
     = (inr {| status := 200;
               body := [("image_url", "/static/uploads/pet.jpg");
                        ("caption", "a black cat")] |},
        <["static/uploads/pet.jpg" := Sample.cat_bytes]> ∅,
        [EvCall "caption_processor"; EvCall "caption_model.generate";
         EvCall "caption_processor.decode"])
  /\ (<["static/uploads/pet.jpg" := Sample.cat_bytes]> ∅
      = <["static/uploads/pet.jpg" := Sample.cat_bytes]> (∅ : FS)
      /\ exists r2 l2,
         upload_image Sample.globals_ok Sample.pil
           (Sample.upload "../pet.jpg" Sample.dog_bytes)
           (<["static/uploads/pet.jpg" := Sample.cat_bytes]> ∅)
         = (inr r2, <["static/uploads/pet.jpg" := Sample.dog_bytes]> ∅, l2)
         /\ status r2 = 200%Z).
Proof.
  split; [reflexivity|]. split; [reflexivity|]. split; [reflexivity|].
  split; [reflexivity|].
  exact (same_name_upload_overwrites Sample.globals_ok Sample.pil ∅
           (Sample.upload "pet.jpg" Sample.cat_bytes)
           (Sample.upload "../pet.jpg" Sample.dog_bytes)
           ("image", {| filename := "pet.jpg"; stream := Sample.cat_bytes |})
           ("image", {| filename := "../pet.jpg"; stream := Sample.dog_bytes |})
           _ _ _ eq_refl eq_refl eq_refl eq_refl).
Defined.

(** C3: captioning and question answering never let an exception escape:
    whatever the image path, the loaded globals, PIL and the models do, each
    helper returns a string, which is the fixed sentinel
    ["Error generating caption."] / ["Error answering question."] exactly
    when its body raised, and leaves the filesystem unchanged.  In the
    handlers this string is returned with status 200: an exception escaping
    [/upload] comes from [save] (before captioning), and one escaping
    [/answer] is the [NameError] for an unbound [use_pipeline] (before any
    inference); otherwise the response is the 400 of a missing input or a
    200 carrying the helper's string. *)
Theorem inference_failures_become_sentinels g pil fs image_path question :
  (exists l, generate_caption g pil image_path fs =
     (inr (match fst (fst (generate_caption_body g pil image_path fs)) with
           | inl _ => "Error generating caption." | inr c => c end), fs, l))
  /\ (exists l, answer_question_pipeline g pil image_path question fs =
     (inr (match fst (fst (answer_question_pipeline_body g pil image_path question fs)) with
           | inl _ => "Error answering question." | inr c => c end), fs, l))
  /\ (exists l, answer_question_model g pil image_path question fs =
     (inr (match fst (fst (answer_question_model_body g pil image_path question fs)) with
           | inl _ => "Error answering question." | inr c => c end), fs, l))
  /\ (forall req,
        match fst (fst (upload_image g pil req fs)) with
        | inl e =>
            exists kv,
              find (fun kv => String.eqb (fst kv) "image") (files req) = Some kv
              /\ fst (fst (save (os_path_join UPLOAD_FOLDER (secure_filename (filename (snd kv))))
                               (stream (snd kv)) fs)) = inl e
        | inr r =>
            r = {| status := 400; body := [("error", "No image uploaded")] |}
            \/ exists kv fs1 caption,
                 find (fun kv => String.eqb (fst kv) "image") (files req) = Some kv
                 /\ fst (fst (save (os_path_join UPLOAD_FOLDER (secure_filename (filename (snd kv))))
                                  (stream (snd kv)) fs)) = inr tt
                 /\ snd (fst (save (os_path_join UPLOAD_FOLDER (secure_filename (filename (snd kv))))
                                  (stream (snd kv)) fs)) = fs1
                 /\ fst (fst (generate_caption g pil
                               (os_path_join UPLOAD_FOLDER (secure_filename (filename (snd kv))))
                               fs1)) = inr caption
                 /\ r = {| status := 200;
                           body := [("image_url", "/static/uploads/"
                                                  ++ secure_filename (filename (snd kv)));
                                    ("caption", caption)] |}
        end)
  /\ (forall req,
        match fst (fst (answer_image_question g pil req fs)) with
        | inl e => e = NameError "use_pipeline" /\ use_pipeline g = None
        | inr r =>
            r = {| status := 400; body := [("error", "No image or question provided")] |}
            \/ exists up path q answer,
                 use_pipeline g = Some up
                 /\ fst (fst ((if up then answer_question_pipeline g pil path q
                               else answer_question_model g pil path q) fs)) = inr answer
                 /\ r = {| status := 200; body := [("answer", answer)] |}
        end).
Proof.
  split; [apply generate_caption_result|].
  split; [apply answer_question_pipeline_result|].
  split; [apply answer_question_model_result|].
  split; intros req.
  - destruct (md_has "image" (files req)) eqn:Hm.
    + destruct (existsb_find _ _ Hm) as [kv Hkv].
      rewrite (upload_image_found _ _ _ _ _ Hkv). unfold bind at 1.
      destruct (save _ _ fs) as [[[e|[]] fs1] l1] eqn:Hs; simpl.
      * exists kv. rewrite Hs. auto.
      * unfold bind at 1. caption_step. simpl. right.
        exists kv, fs1. eexists. rewrite Hs, Hl. repeat split; auto.
    + rewrite upload_image_missing by exact Hm. simpl. left; reflexivity.
  - destruct (md_has "image" (form req)) eqn:Hi;
      [|rewrite answer_without_inputs_is_400_aux by (left; exact Hi); left; reflexivity].
    destruct (md_has "question" (form req)) eqn:Hq;
      [|rewrite answer_without_inputs_is_400_aux by (right; exact Hq); left; reflexivity].
    destruct (existsb_find _ _ Hi) as [kvi Hkvi].
    destruct (existsb_find _ _ Hq) as [kvq Hkvq].
    rewrite (answer_image_question_found _ _ _ _ _ _ Hkvi Hkvq).
    unfold bind at 1, global.
    destruct (use_pipeline g) as [up|] eqn:Hup; [|simpl; auto].
    unfold ret at 1. cbv beta iota.
    unfold bind at 1.
    destruct up.
    + destruct (answer_question_pipeline_result g pil
                  (os_path_join UPLOAD_FOLDER (py_last (py_split "/"%char (snd kvi))))
                  (snd kvq) fs) as [l Hl].
      rewrite Hl. simpl. right.
      exists true, (os_path_join UPLOAD_FOLDER (py_last (py_split "/"%char (snd kvi)))),
        (snd kvq). eexists. split; [reflexivity|]. rewrite Hl. split; reflexivity.
    + destruct (answer_question_model_result g pil
                  (os_path_join UPLOAD_FOLDER (py_last (py_split "/"%char (snd kvi))))
                  (snd kvq) fs) as [l Hl].
      rewrite Hl. simpl. right.
      exists false, (os_path_join UPLOAD_FOLDER (py_last (py_split "/"%char (snd kvi)))),
        (snd kvq). eexists. split; [reflexivity|]. rewrite Hl. split; reflexivity.
Qed.

(** C7: loading never stops the process.  When every load succeeds all
    handles are bound and nothing is printed; otherwise the first failure
    is printed as ["Error loading models: ..."], the handle whose load
    failed (and every later one) stays unbound, and the failure shows up
    only per request: an upload then gets the caption sentinel in its 200
    response, and a question gets the answer sentinel in a 200 response or,
    when the caption loads already failed and [use_pipeline] was never
    bound, a [NameError] (HTTP 500) raised by that request. *)
Theorem failed_model_load_degrades_per_request ld :
  let g := fst (load_models ld) in
  let log := snd (load_models ld) in
  match load_caption_model ld, load_caption_processor ld, load_vqa_pipeline ld with
  | inr _, inr _, inr _ =>
      log = [] /\ caption_model g <> None /\ caption_processor g <> None
      /\ vqa_pipeline g <> None
  | inl e, _, _ | inr _, inl e, _ | inr _, inr _, inl e =>
      log = [EvPrint ("Error loading models: " ++ exn_str e)]
  end
  /\ match load_caption_model ld with inl _ => caption_model g = None | inr _ => True end
  /\ match load_caption_processor ld with
     | inl _ => caption_processor g = None | inr _ => True end
  /\ match load_vqa_pipeline ld with inl _ => vqa_pipeline g = None | inr _ => True end
  /\ (caption_model g = None \/ caption_processor g = None ->
      forall pil req fs,
        match fst (fst (upload_image g pil req fs)) with
        | inl _ => True
        | inr r =>
            r = {| status := 400; body := [("error", "No image uploaded")] |}
            \/ (status r = 200%Z /\
                exists url, body r = [("image_url", url);
                                      ("caption", "Error generating caption.")])
        end)
  /\ (vqa_pipeline g = None ->
      forall pil req fs,
        match fst (fst (answer_image_question g pil req fs)) with
        | inl e => e = NameError "use_pipeline"
        | inr r =>
            r = {| status := 400; body := [("error", "No image or question provided")] |}
            \/ r = {| status := 200; body := [("answer", "Error answering question.")] |}
        end).
Proof.
  intros g log.
  assert (Hup : use_pipeline g <> Some false).
  { subst g. destruct (load_models_use_pipeline ld) as [-> | ->]; discriminate. }
  split; [|split; [|split; [|split; [|split]]]].
  - subst g log; unfold load_models.
    destruct (load_caption_model ld), (load_caption_processor ld),
      (load_vqa_pipeline ld); simpl; repeat split; discriminate.
  - subst g; unfold load_models.
    destruct (load_caption_model ld); [reflexivity|].
    destruct (load_caption_processor ld), (load_vqa_pipeline ld); exact I.
  - subst g; unfold load_models.
    destruct (load_caption_model ld), (load_caption_processor ld); try exact I;
      try reflexivity.
  - subst g; unfold load_models.
    destruct (load_caption_model ld), (load_caption_processor ld),
      (load_vqa_pipeline ld); try exact I; reflexivity.
  - intros Hg pil req fs. apply upload_caption_unbound, Hg.
  - intros Hv pil req fs. apply answer_vqa_unbound; assumption.
Qed.

Lemma failed_model_load_degrades_per_request_witness :
  let g := fst (load_models Sample.loader_offline) in
  let log := snd (load_models Sample.loader_offline) in
  match load_caption_model Sample.loader_offline,
        load_caption_processor Sample.loader_offline,
        load_vqa_pipeline Sample.loader_offline with
  | inr _, inr _, inr _ =>
      log = [] /\ caption_model g <> None /\ caption_processor g <> None
      /\ vqa_pipeline g <> None
  | inl e, _, _ | inr _, inl e, _ | inr _, inr _, inl e =>
      log = [EvPrint ("Error loading models: " ++ exn_str e)]
  end
  /\ match load_caption_model Sample.loader_offline with
     | inl _ => caption_model g = None | inr _ => True end
  /\ match load_caption_processor Sample.loader_offline with
     | inl _ => caption_processor g = None | inr _ => True end
  /\ match load_vqa_pipeline Sample.loader_offline with
     | inl _ => vqa_pipeline g = None | inr _ => True end
  /\ (caption_model g = None \/ caption_processor g = None ->
      forall pil req fs,
        match fst (fst (upload_image g pil req fs)) with
        | inl _ => True
        | inr r =>
            r = {| status := 400; body := [("error", "No image uploaded")] |}
            \/ (status r = 200%Z /\
                exists url, body r = [("image_url", url);
                                      ("caption", "Error generating caption.")])
        end)
  /\ (vqa_pipeline g = None ->
      forall pil req fs,
        match fst (fst (answer_image_question g pil req fs)) with
        | inl e => e = NameError "use_pipeline"
        | inr r =>
            r = {| status := 400; body := [("error", "No image or question provided")] |}
            \/ r = {| status := 200; body := [("answer", "Error answering question.")] |}
        end).
Proof. exact (failed_model_load_degrades_per_request Sample.loader_offline). Defined.

(* ================================================================== *)
(** * Further properties of the handlers *)

(** ** Characters of sanitised names *)

Lemma safe_char_facts c :
  is_safe_char c = true ->
  is_ascii c = true /\ Ascii.eqb c "/"%char = false /\ is_py_space c = false.
Proof.
  destruct c as [[] [] [] [] [] [] [] []]; vm_compute; intros H;
    first [discriminate | repeat split].
Qed.

Local Open Scope list_scope.

Lemma lstrip_head (p : ascii -> bool) l :
  match lstrip p l with [] => True | c :: _ => p c = false end.
Proof.
  induction l as [|c l IH]; simpl; [exact I|].
  destruct (p c) eqn:E; [exact IH|exact E].
Qed.

Lemma lstrip_suffix (p : ascii -> bool) l : exists pre, l = pre ++ lstrip p l.
Proof.
  induction l as [|c l [pre IH]]; simpl; [now exists []|].
  destruct (p c); [exists (c :: pre); simpl; now f_equal|now exists []].
Qed.

Lemma lstrip_id (p : ascii -> bool) l :
  match l with [] => True | c :: _ => p c = false end -> lstrip p l = l.
Proof. destruct l as [|c l]; simpl; [reflexivity|]. now intros ->. Qed.

Lemma last_app_ne {A} (pre y : list A) d : y <> [] -> List.last (pre ++ y) d = List.last y d.
Proof.
  intros Hy; induction pre as [|a pre IH]; simpl; [reflexivity|].
  rewrite IH. destruct (pre ++ y) eqn:E; [|reflexivity].
  apply app_eq_nil in E; tauto.
Qed.

Lemma hd_rev (y : list ascii) d : hd d (rev y) = List.last y d.
Proof.
  induction y as [|a y IH]; [reflexivity|].
  destruct y as [|b y']; [reflexivity|].
  change (rev (a :: b :: y')) with (rev (b :: y') ++ [a]).
  change (List.last (a :: b :: y') d) with (List.last (b :: y') d).
  rewrite <- IH. destruct (rev (b :: y')) eqn:E; [|reflexivity].
  apply (f_equal (@length ascii)) in E. simpl in E. rewrite length_app in E. simpl in E. lia.
Qed.

Lemma last_rev (y : list ascii) d : List.last (rev y) d = hd d y.
Proof. rewrite <- (rev_involutive y) at 2. now rewrite hd_rev. Qed.

Lemma lstrip_head_ne (p : ascii -> bool) l d :
  lstrip p l <> [] -> p (hd d (lstrip p l)) = false.
Proof.
  pose proof (lstrip_head p l) as H. destruct (lstrip p l); [congruence|auto].
Qed.

(** [strip] leaves neither end on a stripped character. *)
Lemma strip_ends (p : ascii -> bool) l d :
  strip p l <> [] ->
  p (hd d (strip p l)) = false /\ p (List.last (strip p l) d) = false.
Proof.
  unfold strip. intros Hne.
  set (m := lstrip p l) in *.
  assert (Hz : lstrip p (rev m) <> []) by (intros E; apply Hne; now rewrite E).
  split.
  - rewrite hd_rev.
    destruct (lstrip_suffix p (rev m)) as [pre Hpre].
    set (z := lstrip p (rev m)) in *.
    assert (Hl : List.last z d = List.last (rev m) d)
      by (rewrite Hpre, last_app_ne by exact Hz; reflexivity).
    rewrite Hl, last_rev. unfold m. apply lstrip_head_ne.
    fold m. intros E. rewrite E in Hpre. simpl in Hpre.
    destruct pre; simpl in Hpre; [|discriminate]. congruence.
  - rewrite last_rev. now apply lstrip_head_ne.
Qed.

Lemma strip_id (p : ascii -> bool) l d :
  l = [] \/ (p (hd d l) = false /\ p (List.last l d) = false) -> strip p l = l.
Proof.
  intros [->|[Hh Hl]]; [reflexivity|].
  unfold strip. rewrite (lstrip_id p l) by (destruct l; simpl in *; auto).
  rewrite (lstrip_id p (rev l)).
  - apply rev_involutive.
  - rewrite <- hd_rev in Hl. destruct (rev l); simpl in *; auto.
Qed.

Lemma filter_all_true (f : ascii -> bool) l :
  Forall (fun c => f c = true) l -> List.filter f l = l.
Proof. induction 1 as [|c l Hc _ IH]; simpl; [reflexivity|]. now rewrite Hc, IH. Qed.

Lemma split_ws_no_space l cur :
  Forall (fun c => is_py_space c = false) l ->
  split_ws l cur = match rev cur ++ l with [] => [] | w => [w] end.
Proof.
  intros Hl; revert cur; induction Hl as [|c l Hc _ IH]; intros cur; simpl.
  - destruct cur as [|a cur]; [reflexivity|]. rewrite app_nil_r.
    destruct (rev (a :: cur)) eqn:E; [|reflexivity].
    apply (f_equal (@length ascii)) in E; simpl in E; rewrite length_app in E;
      simpl in E; lia.
  - rewrite Hc, IH. simpl. rewrite <- app_assoc. reflexivity.
Qed.

Lemma secure_filename_chars fn :
  chars (secure_filename fn)
  = strip is_dot_or_underscore
      (List.filter is_safe_char
         (join_with "_"%char
            (split_ws (map (fun c => if Ascii.eqb c "/"%char then " "%char else c)
                         (List.filter is_ascii (chars fn))) []))).
Proof. unfold secure_filename, of_chars, chars. apply list_ascii_of_string_of_list_ascii. Qed.

Lemma secure_filename_ends fn d :
  chars (secure_filename fn) <> [] ->
  is_dot_or_underscore (hd d (chars (secure_filename fn))) = false
  /\ is_dot_or_underscore (List.last (chars (secure_filename fn)) d) = false.
Proof. rewrite secure_filename_chars. apply strip_ends. Qed.

Lemma chars_inj s1 s2 : chars s1 = chars s2 -> s1 = s2.
Proof.
  intros H. rewrite <- (string_of_list_ascii_of_string s1),
    <- (string_of_list_ascii_of_string s2). unfold chars in H. now rewrite H.
Qed.

Local Open Scope string_scope.

(** X6: [secure_filename], as applied by [/upload], is idempotent: a stored
    name uploaded again is stored (and served) under the same name. *)
Theorem secure_filename_idempotent fn :
  secure_filename (secure_filename fn) = secure_filename fn.
Proof.
  apply chars_inj. rewrite (secure_filename_chars (secure_filename fn)).
  pose proof (secure_filename_safe fn) as Hs.
  pose proof (secure_filename_ends fn "a"%char) as He.
  remember (chars (secure_filename fn)) as cs eqn:Hcs.
  assert (Ha : Forall (fun c => is_ascii c = true) cs)
    by (eapply Forall_impl; [exact Hs|]; intros c Hc; apply safe_char_facts, Hc).
  assert (Hsl : Forall (fun c => Ascii.eqb c "/"%char = false) cs)
    by (eapply Forall_impl; [exact Hs|]; intros c Hc; apply safe_char_facts, Hc).
  assert (Hsp : Forall (fun c => is_py_space c = false) cs)
    by (eapply Forall_impl; [exact Hs|]; intros c Hc; apply safe_char_facts, Hc).
  rewrite (filter_all_true _ _ Ha).
  assert (Hm : map (fun c => if Ascii.eqb c "/"%char then " "%char else c) cs = cs).
  { clear -Hsl. induction Hsl as [|c l Hc _ IH]; simpl; [reflexivity|].
    now rewrite Hc, IH. }
  rewrite Hm, (split_ws_no_space _ _ Hsp). change (rev [] ++ cs)%list with cs.
  destruct cs as [|c cs'] eqn:Ecs; [reflexivity|].
  change (join_with "_"%char [c :: cs']) with (c :: cs')%list.
  rewrite (filter_all_true _ _ Hs).
  apply (strip_id _ _ "a"%char). right.
  apply He. discriminate.
Qed.

(** X7: a name produced by [secure_filename] (the storage name used by
    [/upload]) neither starts nor ends with "." or "_"; in particular it is
    never "." or "..", nor a hidden dot-file. *)
Theorem secure_filename_not_dot_name fn :
  match chars (secure_filename fn) with
  | [] => True
  | c :: _ =>
      is_dot_or_underscore c = false
      /\ is_dot_or_underscore (List.last (chars (secure_filename fn)) c) = false
  end
  /\ secure_filename fn <> "." /\ secure_filename fn <> "..".
Proof.
  pose proof (secure_filename_ends fn "a"%char) as He.
  destruct (chars (secure_filename fn)) as [|c t] eqn:E.
  - split; [exact I|]. split; intros H; rewrite H in E; discriminate.
  - destruct (He ltac:(discriminate)) as [H1 H2]. simpl in H1.
    split; [split; [exact H1|]|].
    + rewrite <- H2. destruct t; [reflexivity|]. simpl. clear. revert a.
      induction t as [|b t IH]; intros a; [reflexivity|]. apply IH.
    + split; intros H; rewrite H in E; simpl in E; injection E as <- _;
        discriminate.
Qed.

(** ** Paths built from a single URL segment or a sanitised name *)

Local Open Scope list_scope.




Lemma split_chars_app sep l1 l2 cur :
  exists pre, split_chars sep (l1 ++ sep :: l2) cur = pre ++ split_chars sep l2 [].
Proof.
  revert cur; induction l1 as [|c l1 IH]; intros cur; simpl.
  - rewrite Ascii.eqb_refl. now exists [rev cur].
  - destruct (Ascii.eqb c sep).
    + destruct (IH []) as [pre Hpre]. rewrite Hpre. now exists (rev cur :: pre).
    + apply IH.
Qed.

Lemma split_chars_nonempty sep l cur : split_chars sep l cur <> [].
Proof.
  revert cur; induction l as [|c l IH]; intros cur; simpl; [discriminate|].
  destruct (Ascii.eqb c sep); [discriminate|apply IH].
Qed.

(** Only the part after the last "/" of a URL matters. *)
Lemma last_segment_app pre s :
  py_last (py_split "/"%char (pre ++ "/" ++ s)%string) = py_last (py_split "/"%char s).
Proof.
  unfold py_last, py_split. rewrite chars_app. change (chars ("/" ++ s)%string) with ("/"%char :: chars s).
  destruct (split_chars_app "/"%char (chars pre) (chars s) []) as [p Hp].
  rewrite Hp, List.map_app. apply last_app_ne.
  intros E. apply map_eq_nil in E. exact (split_chars_nonempty _ _ _ E).
Qed.


Local Open Scope string_scope.










(** ** What the handlers log *)

Section Logs.
Variable P : event -> Prop.


Lemma logs_raise {A} e : logs_within P (@raise A e).
Proof. intros fs; constructor. Qed.










End Logs.


(** X4: once the caption processor and model are bound and [path] names a
    stored file, [generate_caption] returns the decoded first output of the
    model, and ["Error generating caption."] when PIL, the processor or the
    model raises, the model returns no output ([output[0]] raises an
    IndexError) or the decode raises. *)
Theorem generate_caption_stored_file g pil cp cm path fs data :
  caption_processor g = Some cp ->
  caption_model g = Some cm ->
  is_dir path = false ->
  fs !! path_key path = Some data ->
  fst (fst (generate_caption g pil path fs))
  = inr (match pil_open_convert pil data with
         | inl _ => "Error generating caption."
         | inr img =>
             match cp_call cp img with
             | inl _ => "Error generating caption."
             | inr inputs =>
                 match cm_generate cm inputs with
                 | inl _ | inr [] => "Error generating caption."
                 | inr (o0 :: _) =>
                     match cp_decode cp o0 with
                     | inl _ => "Error generating caption."
                     | inr caption => caption
                     end
                 end
             end
         end).
Proof.
  intros Hcp Hcm Hdir Hkey.
  destruct (generate_caption_result g pil path fs) as [l E]. rewrite E. simpl.
  f_equal.
  unfold generate_caption_body, bind at 1, open_image. rewrite Hdir, Hkey.
  destruct (pil_open_convert pil data) as [e|img]; [reflexivity|].
  unfold bind at 1, global. rewrite Hcp. unfold ret at 1. cbv beta iota.
  unfold bind at 1, call at 1.
  destruct (cp_call cp img) as [e|inputs]; [reflexivity|].
  unfold bind at 1, global. rewrite Hcm. unfold ret at 1. cbv beta iota.
  unfold bind at 1, call at 1.
  destruct (cm_generate cm inputs) as [e|[|o0 os]]; [reflexivity|reflexivity|].
  unfold bind at 1, index0, ret at 1. cbv beta iota.
  unfold bind at 1, call.
  destruct (cp_decode cp o0); reflexivity.
Qed.

Lemma generate_caption_stored_file_witness :
  caption_processor Sample.globals_ok = Some Sample.processor
  /\ caption_model Sample.globals_ok = Some Sample.model
  /\ is_dir "static/uploads/cat.jpg" = false
  /\ (<["static/uploads/cat.jpg" := Sample.cat_bytes]> ∅ : FS)
       !! path_key "static/uploads/cat.jpg" = Some Sample.cat_bytes
  /\ fst (fst (generate_caption Sample.globals_ok Sample.pil "static/uploads/cat.jpg"
                 (<["static/uploads/cat.jpg" := Sample.cat_bytes]> ∅)))
     = inr "a black cat".
Proof.
  assert (Hk : (<["static/uploads/cat.jpg" := Sample.cat_bytes]> ∅ : FS)
                 !! path_key "static/uploads/cat.jpg" = Some Sample.cat_bytes)
    by (vm_compute; reflexivity).
  split; [reflexivity|]. split; [reflexivity|]. split; [reflexivity|].
  split; [exact Hk|].
  exact (generate_caption_stored_file Sample.globals_ok Sample.pil Sample.processor
           Sample.model "static/uploads/cat.jpg" _ Sample.cat_bytes
           eq_refl eq_refl eq_refl Hk).
Defined.


(** X8: [/answer] keeps only the last ["/"]-separated segment of the
    [image] form field: prefixing it with any directory part, such as a host
    name or a [".."] path, gives the same response, the same filesystem and
    the same log. *)
Theorem answer_ignores_url_prefix g pil pre s question fs :
  answer_image_question g pil
    {| files := []; form := [("image", pre ++ "/" ++ s); ("question", question)] |} fs
  = answer_image_question g pil
      {| files := []; form := [("image", s); ("question", question)] |} fs.
Proof.
  rewrite (answer_image_question_found g pil
             {| files := []; form := [("image", pre ++ "/" ++ s); ("question", question)] |}
             _ ("image", pre ++ "/" ++ s) ("question", question) eq_refl eq_refl).
  rewrite (answer_image_question_found g pil
             {| files := []; form := [("image", s); ("question", question)] |}
             _ ("image", s) ("question", question) eq_refl eq_refl).
  cbv zeta. simpl snd. rewrite last_segment_app. reflexivity.
Qed.
